(** * Foggle: configuration object, feature lookup and polling start-up

    A shallow embedding of [src/foggle/index.js].

    - JavaScript numbers are IEEE 754 binary64 values ([spec_float] with
      precision 53 and maximal exponent 1024).
    - A plain object used as a string-keyed dictionary is a [gmap string _].
    - [defaultOptions] is a mutable object closed over by the methods of the
      configuration object; its [headers] property holds a {e reference} to a
      second object, so the model keeps an explicit heap of header objects.
    - A function that may throw returns a [result]. *)

From Stdlib Require Import ZArith List Bool.
From Stdlib Require Import Floats.SpecFloat.
From stdpp Require Import base option list strings gmap fin_maps pretty.

Open Scope string_scope.
Open Scope list_scope.

(** ** Exceptions *)

Inductive exn :=
  | Error (message : string)
  | TypeError (message : string).

Inductive result (A : Type) :=
  | Ok (a : A)
  | Throw (e : exn).
Arguments Ok {A} a.
Arguments Throw {A} e.

Definition throws {A} (r : result A) : Prop :=
  match r with Ok _ => False | Throw _ => True end.

(** ** Numbers *)

Module Number.

Definition prec : Z := 53.
Definition emax : Z := 1024.

Definition t := spec_float.

(** The number denoted by an integer literal. *)
Definition of_Z (z : Z) : t := binary_normalize prec emax z 0 false.

Definition mul (x y : t) : t := SFmul prec emax x y.

Definition infinity : t := S754_infinity false.
Definition nan : t := S754_nan.

(** The global [isNaN] on an argument that is already a number. *)
Definition isNaN (x : t) : bool :=
  match x with S754_nan => true | _ => false end.

(** [Number.isFinite]: neither NaN nor an infinity. *)
Definition isFinite (x : t) : bool :=
  match x with
  | S754_nan | S754_infinity _ => false
  | S754_zero _ | S754_finite _ _ _ => true
  end.

End Number.

(** ** Header objects

    The [value] parameter of [addHeader] is documented as a string and may be
    left out, in which case it is [undefined]; both can end up stored. *)

Inductive header_value :=
  | HUndefined
  | HString (s : string).

#[global] Instance header_value_eq_dec : EqDecision header_value.
Proof. solve_decision. Defined.

Abbreviation headers_object := (gmap string header_value).

(** The [name] parameter of [addHeader] once its default has been applied:
    a string, or an object whose own enumerable properties are given. *)
Inductive name_value :=
  | NString (s : string)
  | NObject (o : headers_object).

Definition typeof_header_value (v : header_value) : string :=
  match v with
  | HUndefined => "undefined"
  | HString _ => "string"
  end.

(** [typeof key]: the identifier [key] is bound nowhere in the module (the
    parameters of [addHeader] are [name] and [value]) and is no standard
    global, and [typeof] of an unresolvable reference is ["undefined"]. *)
Definition typeof_key : string := "undefined".

(** The own enumerable properties that an object spread [{...name}] copies.
    A string spreads into its characters, keyed by their index. *)
Definition own_properties (name : name_value) : headers_object :=
  match name with
  | NObject o => o
  | NString s =>
      list_to_map
        (imap (fun i c => (pretty i, HString (String c EmptyString)))
              (String.list_ascii_of_string s))
  end.

(** Conversion of [name] to a property key in [headers[name]].  A string is
    its own key.  A plain object goes through [toString]: the inherited one
    yields ["[object Object]"]; an own [toString] property holding a string or
    [undefined] is not callable, and the fallback [valueOf] does not produce a
    primitive, so the conversion throws. *)
Definition toPropertyKey (name : name_value) : result string :=
  match name with
  | NString s => Ok s
  | NObject o =>
      match o !! "toString" with
      | Some _ => Throw (TypeError "Cannot convert object to primitive value")
      | None => Ok "[object Object]"
      end
  end.

(** The assignment [o[k] = v] on an ordinary object whose prototype is
    [Object.prototype].  The key ["__proto__"] reaches the inherited accessor
    unless [o] owns such a property, and that setter ignores a value that is
    neither an object nor [null]. *)
Definition set_property (k : string) (v : header_value) (o : headers_object)
  : headers_object :=
  if (k =? "__proto__") && bool_decide (o !! k = None) then o
  else <[k := v]> o.

(** ** The state behind a configuration object *)

Definition loc := nat.

(** [defaultOptions]: [headers] is a reference into the heap. *)
Record Options := mkOptions {
  updateInterval : Number.t;
  headers : loc;
  host : option string;        (* [None] is [undefined] *)
}.

Record ConfigState := mkConfigState {
  heap : list headers_object;
  defaultOptions : Options;
}.

(** A reference always points at an object: [defaultOptions.headers] lies
    within the heap.  Construction establishes this and every method keeps
    it, so the out-of-range behaviour of the list operations never shows. *)
Definition well_formed (s : ConfigState) : Prop :=
  headers (defaultOptions s) < length (heap s).

Definition set_updateInterval (n : Number.t) (o : Options) : Options :=
  {| updateInterval := n; headers := headers o; host := host o |}.

Definition set_headers (l : loc) (o : Options) : Options :=
  {| updateInterval := updateInterval o; headers := l; host := host o |}.

Definition set_host (h : option string) (o : Options) : Options :=
  {| updateInterval := updateInterval o; headers := headers o; host := h |}.

(** The object that [defaultOptions.headers] refers to. *)
Definition deref (h : list headers_object) (l : loc) : headers_object :=
  h !!! l.

(** [defaultOptions.headers = o] for a freshly created object [o]. *)
Definition assign_fresh_headers (o : headers_object) (s : ConfigState)
  : ConfigState :=
  {| heap := heap s ++ [o];
     defaultOptions := set_headers (length (heap s)) (defaultOptions s) |}.

(** Truthiness of the [host] argument: [undefined] and [''] are falsy. *)
Definition truthy (h : option string) : bool :=
  match h with
  | None => false
  | Some s => negb (s =? "")
  end.

(** [console.assert(condition, message)] writes [message] to the console when
    the condition is falsy and does nothing else; it does not throw. *)
Definition console_assert (condition : bool) (message : string)
    (console : list string) : list string :=
  if condition then console else console ++ [message].

Definition host_not_specified : string :=
  "Host not specified. Please pass a host to the FoggleConfig".

(** [FoggleConfig(host)]: the console output and the state closed over by the
    returned object. *)
Definition FoggleConfig (host : option string) : list string * ConfigState :=
  let console := console_assert (truthy host) host_not_specified [] in
  let defaultOptions :=
    {| updateInterval :=
         Number.mul (Number.mul (Number.of_Z 1000) (Number.of_Z 60))
                    (Number.of_Z 10);
       headers := 0;
       host := host |} in
  (console, {| heap := [∅]; defaultOptions := defaultOptions |}).

(** *** Methods of the configuration object *)

(** [getOptions()]: a new object with the three properties of
    [defaultOptions]; [headers] is copied as a reference. *)
Definition getOptions (s : ConfigState) : Options :=
  {| updateInterval := updateInterval (defaultOptions s);
     headers := headers (defaultOptions s);
     host := host (defaultOptions s) |}.

Definition getHost (s : ConfigState) : option string :=
  host (defaultOptions s).

Definition getUpdateInterval (s : ConfigState) : Number.t :=
  updateInterval (defaultOptions s).

(** A method that may throw returns its outcome together with the state it
    leaves behind. *)
Definition setUpdateInterval (interval : Number.t) (s : ConfigState)
  : result unit * ConfigState :=
  if Number.isNaN interval then
    (Throw (Error "interval must be of type number"), s)
  else
    (Ok tt,
     {| heap := heap s;
        defaultOptions := set_updateInterval interval (defaultOptions s) |}).

(** [getHeaders()]: a new object with the properties of the headers object. *)
Definition getHeaders (s : ConfigState) : headers_object :=
  deref (heap s) (headers (defaultOptions s)).

(** [addHeader(name = '', value)]; [None] for [name] is [undefined]. *)
Definition addHeader (name : option name_value) (value : header_value)
    (s : ConfigState) : result unit * ConfigState :=
  let name := default (NString "") name in
  if (typeof_key =? "object") && (typeof_header_value value =? "undefined")
  then
    (* the properties of [name] are written after, and over, the old ones *)
    (Ok tt,
     assign_fresh_headers
       (own_properties name ∪ deref (heap s) (headers (defaultOptions s))) s)
  else
    match toPropertyKey name with
    | Throw e => (Throw e, s)
    | Ok k =>
        let l := headers (defaultOptions s) in
        (Ok tt,
         {| heap := <[l := set_property k value (deref (heap s) l)]> (heap s);
            defaultOptions := defaultOptions s |})
    end.

Definition clearHeaders (s : ConfigState) : ConfigState :=
  assign_fresh_headers ∅ s.

(** *** What the holder of an object returned by [getOptions] can do to it *)

Inductive mutation :=
  | AssignUpdateInterval (n : Number.t)            (* o.updateInterval = n *)
  | AssignHost (h : option string)                 (* o.host = h *)
  | AssignHeaders (o' : headers_object)            (* o.headers = {...} *)
  | AssignHeader (k : string) (v : header_value)   (* o.headers[k] = v *)
  | DeleteHeader (k : string).                     (* delete o.headers[k] *)

(** One mutation of the returned object [o]; the heap it reaches into is the
    one of the configuration. *)
Definition mutate (m : mutation) (os : Options * ConfigState)
  : Options * ConfigState :=
  let '(o, s) := os in
  match m with
  | AssignUpdateInterval n => (set_updateInterval n o, s)
  | AssignHost h => (set_host h o, s)
  | AssignHeaders o' =>
      (set_headers (length (heap s)) o,
       {| heap := heap s ++ [o']; defaultOptions := defaultOptions s |})
  | AssignHeader k v =>
      (o,
       {| heap := <[headers o :=
                      set_property k v (deref (heap s) (headers o))]> (heap s);
          defaultOptions := defaultOptions s |})
  | DeleteHeader k =>
      (o,
       {| heap := <[headers o := delete k (deref (heap s) (headers o))]>
                    (heap s);
          defaultOptions := defaultOptions s |})
  end.

(** ** Feature records and the context value *)

(** A date by its time value ([getTime()]): milliseconds since the epoch, or
    NaN for an invalid date. *)
Inductive Date :=
  | InvalidDate
  | TimeValue (ms : Z).

(** [isBefore] of date-fns: [date.getTime() < dateToCompare.getTime()], which
    is false as soon as one of the two is NaN. *)
Definition isBefore (date dateToCompare : Date) : bool :=
  match date, dateToCompare with
  | TimeValue t, TimeValue t' => (t <? t')%Z
  | _, _ => false
  end.

Record FeatureRecord := mkFeature {
  id : string;
  manually_activated : bool;
  release_date : Date;
}.

(** The [features] slice of the store: [value.features]. *)
Record FeaturesState := mkFeaturesState {
  enabledFeatures : list FeatureRecord;
}.

Module FoggleContext.

(** A context value; a property that the object does not have reads as
    [undefined], here [None]. *)
Record value := mkValue {
  features : option FeaturesState;
  enabledFeatures : option (list FeatureRecord);
}.

(** The default passed to [React.createContext]: [{enabledFeatures: []}]. *)
Definition defaultValue : value :=
  {| features := None; enabledFeatures := Some [] |}.

(** The value that [_FoggleProvider.render] provides: [{features}]. *)
Definition provided (features : option FeaturesState) : value :=
  {| features := features; enabledFeatures := None |}.

End FoggleContext.

(** [found.manually_activated || isBefore(found.release_date, new Date())],
    the test of both render callbacks, with [now] the value of [new Date()]. *)
Definition isActive (found : FeatureRecord) (now : Date) : bool :=
  manually_activated found || isBefore (release_date found) now.

Definition cannot_read_enabledFeatures : exn :=
  TypeError "Cannot read property 'enabledFeatures' of undefined".

Section Render.

Context {Children : Type}.

(** The function that [FoggleConsumer.render] hands to [Consumer]:
    [Some children] when [children] is rendered, [None] for [null]. *)
Definition FoggleConsumer_render (id0 : string) (children : Children)
    (now : Date) (value : FoggleContext.value) : result (option Children) :=
  match FoggleContext.features value with
  | None => Throw cannot_read_enabledFeatures
  | Some fs =>
      match find (fun feature => id feature =? id0) (enabledFeatures fs) with
      | Some found =>
          Ok (if manually_activated found
                 || isBefore (release_date found) now
              then Some children else None)
      | None => Ok None
      end
  end.

End Render.

(** An element [<Component {...props}/>]. *)
Inductive element (C P : Type) :=
  | createElement (component : C) (props : P).
Arguments createElement {C P} component props.

Section WithFoggle.

Context {C V : Type}.

(** The function that [FoggyComponent.render] hands to [Consumer] in
    [withFoggle(Component, featureId, ...)].  The element receives
    [{...this.props, ...this.boundActionCreators}]. *)
Definition FoggyComponent_render (Component : C) (featureId : string)
    (props boundActionCreators : gmap string V)
    (now : Date) (value : FoggleContext.value)
  : result (option (element C (gmap string V))) :=
  match FoggleContext.features value with
  | None => Throw cannot_read_enabledFeatures
  | Some fs =>
      match
        find (fun feature => id feature =? featureId) (enabledFeatures fs)
      with
      | Some found =>
          Ok (if orb (manually_activated found)
                     (isBefore (release_date found) now)
              then Some (createElement Component
                           (boundActionCreators ∪ props))
              else None)
      | None => Ok None
      end
  end.

End WithFoggle.

(** ** Start-up of the provider *)

(** [update.bind(this)], the function handed to [setInterval]. *)
Inductive callback := BoundUpdate.

(** What the component does to the outside, in order. *)
Inductive event :=
  | CheckFeatures (host : option string) (headers : headers_object)
  | SetInterval (handler : callback) (delay : Number.t).

(** Computations that append to the trace of events. *)
Definition Eff (A : Type) : Type := list event → A * list event.

#[global] Instance Eff_ret : MRet Eff := fun A a tr => (a, tr).

#[global] Instance Eff_bind : MBind Eff :=
  fun A B k m tr => let '(a, tr') := m tr in k a tr'.

Definition emit (e : event) : Eff unit := fun tr => (tt, tr ++ [e]).

(** [this.props.checkFeatures(host, headers)]. *)
Definition checkFeatures (host : option string) (headers : headers_object)
  : Eff unit :=
  emit (CheckFeatures host headers).

Definition setInterval (handler : callback) (delay : Number.t) : Eff unit :=
  emit (SetInterval handler delay).

(** The named function expression [update], run against the configuration
    as it is at the time of the call. *)
Definition update (config : ConfigState) : Eff callback :=
  checkFeatures (getHost config) (getHeaders config);;
  mret BoundUpdate.

(** [componentDidMount]: the first argument of [setInterval] is the result of
    calling the bound [update] once; the second is read afterwards. *)
Definition componentDidMount (config : ConfigState) : Eff unit :=
  handler ← update config;
  delay ← mret (getUpdateInterval config);
  setInterval handler delay.

(** The timer invoking a handler; what the handler returns is dropped. *)
Definition fire (handler : callback) (config : ConfigState) : Eff unit :=
  match handler with
  | BoundUpdate => update config;; mret tt
  end.

(** [n] expiries of the timer with the configuration left alone. *)
Fixpoint fire_times (n : nat) (handler : callback) (config : ConfigState)
  : Eff unit :=
  match n with
  | O => mret tt
  | S n' => fire handler config;; fire_times n' handler config
  end.

Definition is_fetch (e : event) : bool :=
  match e with
  | CheckFeatures _ _ => true
  | SetInterval _ _ => false
  end.

(** [config = FoggleConfig()] in [FoggleProvider.render]: without a [config]
    prop the provider builds a configuration with no host. *)
Definition FoggleProvider_config (config : option ConfigState) : ConfigState :=
  match config with
  | Some c => c
  | None => snd (FoggleConfig None)
  end.

(** ** Using a configuration object over time *)

(** A call of one of the three methods that change the configuration. *)
Inductive method_call :=
  | SetUpdateInterval (interval : Number.t)
  | AddHeader (name : option name_value) (value : header_value)
  | ClearHeaders.

Definition call (c : method_call) (s : ConfigState)
  : result unit * ConfigState :=
  match c with
  | SetUpdateInterval interval => setUpdateInterval interval s
  | AddHeader name value => addHeader name value s
  | ClearHeaders => (Ok tt, clearHeaders s)
  end.

(** Calls made one after the other; a call that throws is caught by the
    caller, and the next one finds the state that call left. *)
Definition calls (cs : list method_call) (s : ConfigState) : ConfigState :=
  foldl (fun s c => snd (call c s)) s cs.

(** The timer expiring once for each of the given states of the
    configuration, in that order: the configuration may have been changed
    between two expiries. *)
Fixpoint fire_each (handler : callback) (configs : list ConfigState)
  : Eff unit :=
  match configs with
  | [] => mret tt
  | config :: configs' => fire handler config;; fire_each handler configs'
  end.

(** ** Context values of any shape

    Nothing in the module fixes what [value.features] holds: it is whatever
    the store has under [features].  The callbacks read
    [value.features.enabledFeatures.find(...)] and, in the predicate,
    [feature.id], and each of these reads throws a [TypeError] on
    [undefined] or [null]. *)

Module Raw.

(** An element of the array: [null] or [undefined] (a hole reads as
    [undefined]), or a feature record. *)
Inductive entry :=
  | Nullish
  | Feature (r : FeatureRecord).

(** What [value.features] holds: [undefined] or [null], or an object whose
    [enabledFeatures] property is missing or nullish ([None]) or an array. *)
Inductive slice :=
  | NoSlice
  | Slice (enabledFeatures : option (list entry)).

Record value := mkValue {
  features : slice;
}.

Definition cannot_read_find : exn :=
  TypeError "Cannot read property 'find' of undefined".

Definition cannot_read_id : exn :=
  TypeError "Cannot read property 'id' of null".

(** [array.find(feature => feature.id === id0)]: the predicate is called on
    the elements in order until it holds; on a nullish element it throws. *)
Fixpoint find (id0 : string) (array : list entry)
  : result (option FeatureRecord) :=
  match array with
  | [] => Ok None
  | Nullish :: _ => Throw cannot_read_id
  | Feature feature :: rest =>
      if id feature =? id0 then Ok (Some feature) else find id0 rest
  end.

(** The callback of [FoggleConsumer.render] on such a value. *)
Definition FoggleConsumer_render {Children : Type} (id0 : string)
    (children : Children) (now : Date) (value : value)
  : result (option Children) :=
  match features value with
  | NoSlice => Throw cannot_read_enabledFeatures
  | Slice None => Throw cannot_read_find
  | Slice (Some array) =>
      match find id0 array with
      | Throw e => Throw e
      | Ok (Some found) =>
          Ok (if manually_activated found
                 || isBefore (release_date found) now
              then Some children else None)
      | Ok None => Ok None
      end
  end.

(** The callback of [FoggyComponent.render] on such a value. *)
Definition FoggyComponent_render {C V : Type} (Component : C)
    (featureId : string) (props boundActionCreators : gmap string V)
    (now : Date) (value : value)
  : result (option (element C (gmap string V))) :=
  match features value with
  | NoSlice => Throw cannot_read_enabledFeatures
  | Slice None => Throw cannot_read_find
  | Slice (Some array) =>
      match find featureId array with
      | Throw e => Throw e
      | Ok (Some found) =>
          Ok (if orb (manually_activated found)
                     (isBefore (release_date found) now)
              then Some (createElement Component
                           (boundActionCreators ∪ props))
              else None)
      | Ok None => Ok None
      end
  end.

(** A context value whose [features], when there, holds an array of
    records, seen as a value of any shape. *)
Definition of_value (v : FoggleContext.value) : value :=
  {| features :=
       match FoggleContext.features v with
       | None => NoSlice
       | Some fs => Slice (Some (map Feature (enabledFeatures fs)))
       end |}.

(** A nullish element comes before any record with the id. *)
Definition nullish_before_match (id0 : string) (array : list entry) : Prop :=
  ∃ (rs : list FeatureRecord) (rest : list entry),
    array = map Feature rs ++ Nullish :: rest
    ∧ Forall (fun r => id r ≠ id0) rs.

(** The three ways a read can fail. *)
Definition unreadable (id0 : string) (v : value) : Prop :=
  match features v with
  | NoSlice => True
  | Slice None => True
  | Slice (Some array) => nullish_before_match id0 array
  end.

End Raw.

(** ** Notions used to state the properties *)

(** [d] is strictly before [d']: both are valid dates and the time value of
    the first is the smaller one. *)
Definition before (d d' : Date) : Prop :=
  match d, d' with
  | TimeValue t, TimeValue t' => (t < t')%Z
  | _, _ => False
  end.

(** [first_match fid l m]: [m] is the first record of [l] whose [id] is
    [fid], or [None] when [l] has no such record. *)
Inductive first_match (fid : string)
  : list FeatureRecord → option FeatureRecord → Prop :=
  | first_match_none l :
      (∀ r, r ∈ l → id r ≠ fid) →
      first_match fid l None
  | first_match_some l1 r l2 :
      (∀ x, x ∈ l1 → id x ≠ fid) →
      id r = fid →
      first_match fid (l1 ++ r :: l2) (Some r).

(** * Properties of the configuration object *)

(** [1000 * 60 * 10], computed on doubles, is the double 600000. *)
Lemma ten_minutes :
  Number.mul (Number.mul (Number.of_Z 1000) (Number.of_Z 60)) (Number.of_Z 10)
  = Number.of_Z 600000.
Proof. vm_compute. reflexivity. Qed.

Section Configuration.

Implicit Types (s : ConfigState) (o : Options) (n : Number.t).

Lemma FoggleConfig_well_formed (h : option string) :
  well_formed (snd (FoggleConfig h)).
Proof. unfold well_formed. simpl. lia. Qed.

Lemma assign_fresh_headers_well_formed (obj : headers_object) s :
  well_formed (assign_fresh_headers obj s).
Proof. unfold well_formed. simpl. rewrite length_app. simpl. lia. Qed.

Lemma deref_fresh (obj : headers_object) (h : list headers_object) :
  deref (h ++ [obj]) (length h) = obj.
Proof.
  unfold deref. apply list_lookup_total_correct.
  rewrite lookup_app_r by lia. by rewrite Nat.sub_diag.
Qed.

Lemma deref_insert_eq (h : list headers_object) (l : loc)
    (obj : headers_object) :
  l < length h → deref (<[l := obj]> h) l = obj.
Proof.
  intros Hl. unfold deref. apply list_lookup_total_correct.
  by apply list_lookup_insert_eq.
Qed.

Lemma getHeaders_assign_fresh (obj : headers_object) s :
  getHeaders (assign_fresh_headers obj s) = obj.
Proof. unfold getHeaders. simpl. apply deref_fresh. Qed.

Lemma clearHeaders_empty s : getHeaders (clearHeaders s) = ∅.
Proof. apply getHeaders_assign_fresh. Qed.

(** The test in [addHeader] never holds, so every call takes the
    assignment [defaultOptions.headers[name] = value]. *)
Lemma addHeader_assigns (name : option name_value) (value : header_value) s :
  addHeader name value s =
  match toPropertyKey (default (NString "") name) with
  | Throw e => (Throw e, s)
  | Ok k =>
      (Ok tt,
       {| heap := <[headers (defaultOptions s) :=
                      set_property k value (getHeaders s)]> (heap s);
          defaultOptions := defaultOptions s |})
  end.
Proof. reflexivity. Qed.

Lemma addHeader_defaultOptions (name : option name_value)
    (value : header_value) s :
  defaultOptions (snd (addHeader name value s)) = defaultOptions s.
Proof.
  rewrite addHeader_assigns.
  by destruct (toPropertyKey (default (NString "") name)).
Qed.

Lemma addHeader_well_formed (name : option name_value)
    (value : header_value) s :
  well_formed s → well_formed (snd (addHeader name value s)).
Proof.
  unfold well_formed. rewrite addHeader_assigns.
  destruct (toPropertyKey (default (NString "") name)); simpl;
    [by rewrite length_insert | done].
Qed.

(** A string name (other than the accessor ["__proto__"]) becomes a header. *)
Lemma addHeader_string (k : string) (value : header_value) s :
  well_formed s →
  addHeader (Some (NString k)) value s
  = (Ok tt, snd (addHeader (Some (NString k)) value s))
  ∧ getHeaders (snd (addHeader (Some (NString k)) value s))
    = set_property k value (getHeaders s).
Proof.
  intros Hwf. rewrite addHeader_assigns. simpl. split; [done |].
  unfold getHeaders at 1. simpl. by apply deref_insert_eq.
Qed.

(** An object argument is not merged: it is converted to the single key
    ["[object Object]"], whose value is the second argument. *)
Lemma addHeader_object (obj : headers_object) (value : header_value) s :
  well_formed s →
  obj !! "toString" = None →
  getHeaders (snd (addHeader (Some (NObject obj)) value s))
  = set_property "[object Object]" value (getHeaders s).
Proof.
  intros Hwf Hts. rewrite addHeader_assigns. simpl. rewrite Hts.
  unfold getHeaders at 1. simpl. by apply deref_insert_eq.
Qed.

Lemma setUpdateInterval_well_formed n s :
  well_formed s → well_formed (snd (setUpdateInterval n s)).
Proof. unfold setUpdateInterval. by destruct (Number.isNaN n). Qed.

(** Assignments to the properties of the object returned by [getOptions]
    itself stay in that object. *)
Lemma getOptions_top_level_copy (m : mutation) s :
  match m with AssignHeader _ _ | DeleteHeader _ => False | _ => True end →
  well_formed s →
  let s' := snd (mutate m (getOptions s, s)) in
  getOptions s' = getOptions s ∧ getHeaders s' = getHeaders s.
Proof.
  intros Hm Hwf. destruct m; try done; simpl; split; try done.
  unfold getHeaders, deref. simpl.
  apply lookup_total_app_l. exact Hwf.
Qed.

End Configuration.

(** ** Construction *)

(** C4, as the code has it: [FoggleConfig] never fails.  For every [host],
    absent and empty included, it returns a configuration object with that
    host, an update interval of 600000 ms and no headers; the only effect of
    a falsy host is the message that [console.assert] writes, and a truthy
    host writes nothing. *)
Theorem FoggleConfig_defaults (h : option string) :
  getHost (snd (FoggleConfig h)) = h
  ∧ getUpdateInterval (snd (FoggleConfig h)) = Number.of_Z 600000
  ∧ getHeaders (snd (FoggleConfig h)) = ∅
  ∧ fst (FoggleConfig h) = if truthy h then [] else [host_not_specified].
Proof.
  split; [reflexivity |]. split; [| split].
  - unfold getUpdateInterval. simpl. apply ten_minutes.
  - reflexivity.
  - unfold FoggleConfig, console_assert. simpl. by destruct (truthy h).
Qed.

(** C4 does not hold as stated: with an absent host, and with an empty one, a
    configuration object is returned all the same, and it reports that
    host.  [FoggleProvider.render] relies on it for its default [config]. *)
Lemma FoggleConfig_falsy_host_returns :
  FoggleConfig None
    = ([host_not_specified],
       {| heap := [∅];
          defaultOptions := {| updateInterval := Number.of_Z 600000;
                               headers := 0; host := None |} |})
  ∧ getHost (snd (FoggleConfig None)) = None
  ∧ getHost (snd (FoggleConfig (Some ""))) = Some ""
  ∧ getHost (FoggleProvider_config None) = None.
Proof. vm_compute. by repeat split. Qed.

(** ** The update interval *)

(** C3, as the code has it: [setUpdateInterval(n)] throws exactly when [n] is
    NaN; when it throws the state, and so the interval, is what it was; when
    it returns the interval is [n]. *)
Theorem setUpdateInterval_spec (n : Number.t) (s : ConfigState) :
  (throws (fst (setUpdateInterval n s)) ↔ Number.isNaN n = true)
  ∧ (throws (fst (setUpdateInterval n s)) →
       snd (setUpdateInterval n s) = s
       ∧ getUpdateInterval (snd (setUpdateInterval n s)) = getUpdateInterval s)
  ∧ (fst (setUpdateInterval n s) = Ok tt →
       getUpdateInterval (snd (setUpdateInterval n s)) = n).
Proof.
  unfold setUpdateInterval.
  destruct (Number.isNaN n); simpl; repeat split; try done.
Qed.

Lemma setUpdateInterval_spec_witness :
  getUpdateInterval
    (snd (setUpdateInterval (Number.of_Z 5000) (snd (FoggleConfig (Some "h")))))
  = Number.of_Z 5000
  ∧ getUpdateInterval
      (snd (setUpdateInterval Number.nan (snd (FoggleConfig (Some "h")))))
    = getUpdateInterval (snd (FoggleConfig (Some "h"))).
Proof.
  split.
  - apply (proj2 (proj2 (setUpdateInterval_spec (Number.of_Z 5000)
                           (snd (FoggleConfig (Some "h")))))).
    reflexivity.
  - apply (proj1 (proj2 (setUpdateInterval_spec Number.nan
                           (snd (FoggleConfig (Some "h")))))).
    simpl. exact I.
Defined.

(** C3 does not hold as stated: [Infinity] is not a finite number, and
    [setUpdateInterval(Infinity)] returns and stores it. *)
Lemma setUpdateInterval_accepts_infinity :
  Number.isFinite Number.infinity = false
  ∧ fst (setUpdateInterval Number.infinity (snd (FoggleConfig (Some "h"))))
    = Ok tt
  ∧ getUpdateInterval
      (snd (setUpdateInterval Number.infinity (snd (FoggleConfig (Some "h")))))
    = Number.infinity
  ∧ ¬ (∀ n s, throws (fst (setUpdateInterval n s))
              ↔ Number.isFinite n = false).
Proof.
  repeat split; try reflexivity.
  intros H.
  destruct (H Number.infinity (snd (FoggleConfig (Some "h")))) as [_ Hthrow].
  exact (Hthrow eq_refl).
Qed.

(** ** Headers *)

(** C2 on the code: after [addHeader("X","1")] the call
    [addHeader({"Y":"2"})] returns normally but merges nothing.  The object
    is used as a property name, so the headers are
    [{X: "1", "[object Object]": undefined}] and not [{X: "1", Y: "2"}]. *)
Theorem addHeader_object_not_merged :
  let s0 := snd (FoggleConfig (Some "h")) in
  let s1 := snd (addHeader (Some (NString "X")) (HString "1") s0) in
  let call := addHeader (Some (NObject {[ "Y" := HString "2" ]})) HUndefined s1
  in
  getHeaders s1 = {[ "X" := HString "1" ]}
  ∧ fst call = Ok tt
  ∧ getHeaders (snd call)
    = {[ "X" := HString "1"; "[object Object]" := HUndefined ]}
  ∧ getHeaders (snd call) ≠ {[ "X" := HString "1"; "Y" := HString "2" ]}.
Proof.
  repeat split; try (vm_compute; reflexivity).
  intros H. apply (f_equal (fun m => m !! "Y")) in H.
  vm_compute in H. discriminate H.
Qed.

(** C10: [addHeader] and [clearHeaders] leave the host and the update
    interval as they were, and [setUpdateInterval], whether it returns or
    throws, leaves the host and the headers as they were. *)
Theorem mutators_frame (s : ConfigState) (name : option name_value)
    (value : header_value) (n : Number.t) :
  (getHost (snd (addHeader name value s)) = getHost s
   ∧ getUpdateInterval (snd (addHeader name value s)) = getUpdateInterval s)
  ∧ (getHost (clearHeaders s) = getHost s
     ∧ getUpdateInterval (clearHeaders s) = getUpdateInterval s)
  ∧ (getHost (snd (setUpdateInterval n s)) = getHost s
     ∧ getHeaders (snd (setUpdateInterval n s)) = getHeaders s).
Proof.
  split; [| split].
  - unfold getHost, getUpdateInterval.
    by rewrite addHeader_defaultOptions.
  - done.
  - unfold setUpdateInterval. by destruct (Number.isNaN n).
Qed.

(** C7 on the code: the object returned by [getOptions] carries the
    reference to the headers object of the configuration, so
    [getOptions().headers["A"] = "1"] adds a header to the configuration:
    [getHeaders()] goes from [{}] to [{A: "1"}]. *)
Theorem getOptions_shares_headers :
  let s := snd (FoggleConfig (Some "h")) in
  let s' := snd (mutate (AssignHeader "A" (HString "1")) (getOptions s, s)) in
  getHeaders s = ∅
  ∧ getHeaders s' = {[ "A" := HString "1" ]}
  ∧ getHeaders s' ≠ getHeaders s.
Proof.
  repeat split; try (vm_compute; reflexivity).
  intros H. apply (f_equal (fun m => m !! "A")) in H.
  vm_compute in H. discriminate H.
Qed.

(** * Properties of the feature lookup *)

Section Lookup.

Implicit Types (r : FeatureRecord) (l : list FeatureRecord) (fid : string).

Lemma isBefore_before (d d' : Date) : isBefore d d' = true ↔ before d d'.
Proof.
  destruct d as [| t], d' as [| t']; simpl; try (split; [discriminate | tauto]).
  apply Z.ltb_lt.
Qed.

Lemma isBefore_irrefl (d : Date) : isBefore d d = false.
Proof. destruct d as [| t]; simpl; [done | apply Z.ltb_irrefl]. Qed.

Lemma find_no_match fid l :
  (∀ r, r ∈ l → id r ≠ fid) →
  find (fun feature => id feature =? fid) l = None.
Proof.
  induction l as [| a l IH]; intros Hno; simpl; [done |].
  destruct (String.eqb_spec (id a) fid) as [Heq | _].
  - exfalso. apply (Hno a); [left | exact Heq].
  - apply IH. intros r Hr. apply Hno. by right.
Qed.

Lemma find_first_match fid l m :
  first_match fid l m →
  find (fun feature => id feature =? fid) l = m.
Proof.
  intros Hm. destruct Hm as [l Hno | l1 r l2 Hno Hid].
  - by apply find_no_match.
  - induction l1 as [| a l1 IH]; simpl.
    + by rewrite (proj2 (String.eqb_eq _ _) Hid).
    + destruct (String.eqb_spec (id a) fid) as [Heq | _].
      * exfalso. apply (Hno a); [left | exact Heq].
      * apply IH. intros x Hx. apply Hno. by right.
Qed.

(** Every list has a first match, or none. *)
Lemma first_match_total fid l : ∃ m, first_match fid l m.
Proof.
  induction l as [| a l [m IH]].
  - exists None. constructor. intros r Hr. by apply elem_of_nil in Hr.
  - destruct (String.eqb_spec (id a) fid) as [Heq | Hne].
    + exists (Some a). apply (first_match_some fid [] a l); [| exact Heq].
      intros x Hx. by apply elem_of_nil in Hx.
    + destruct IH as [l Hno | l1 r l2 Hno Hid].
      * exists None. constructor. intros r Hr.
        apply elem_of_cons in Hr as [-> | Hr]; [exact Hne | by apply Hno].
      * exists (Some r). apply (first_match_some fid (a :: l1) r l2);
          [| exact Hid].
        intros x Hx.
        apply elem_of_cons in Hx as [-> | Hx]; [exact Hne | by apply Hno].
Qed.

Lemma isActive_true_iff r (now : Date) :
  isActive r now = true
  ↔ manually_activated r = true ∨ before (release_date r) now.
Proof.
  unfold isActive. rewrite orb_true_iff, isBefore_before. tauto.
Qed.

(** The consumer tests the record it found with [isActive]. *)
Lemma FoggleConsumer_render_provided {Children : Type} fid
    (children : Children) (now : Date) l :
  FoggleConsumer_render fid children now
    (FoggleContext.provided (Some {| enabledFeatures := l |}))
  = Ok (match find (fun feature => id feature =? fid) l with
        | Some found => if isActive found now then Some children else None
        | None => None
        end).
Proof.
  unfold FoggleConsumer_render. simpl.
  by destruct (find _ l).
Qed.

Lemma FoggyComponent_render_provided {C V : Type} (Component : C) fid
    (props bound : gmap string V) (now : Date) l :
  FoggyComponent_render Component fid props bound now
    (FoggleContext.provided (Some {| enabledFeatures := l |}))
  = Ok (match find (fun feature => id feature =? fid) l with
        | Some found =>
            if isActive found now
            then Some (createElement Component (bound ∪ props))
            else None
        | None => None
        end).
Proof.
  unfold FoggyComponent_render. simpl.
  by destruct (find _ l).
Qed.

End Lookup.

(** ** The activation decision *)

(** C1: the decision is true exactly when the record is manually activated
    or its release date is strictly before the current time.  The comparison
    is strict: when the release date equals the current time the date test
    fails, so the decision is then false unless the record is manually
    activated, that is, it equals [manually_activated]. *)
Theorem isActive_spec (r : FeatureRecord) (now : Date) :
  (isActive r now = true
   ↔ manually_activated r = true ∨ before (release_date r) now)
  ∧ (release_date r = now → isActive r now = manually_activated r).
Proof.
  split.
  - apply isActive_true_iff.
  - intros Heq. unfold isActive.
    rewrite Heq, isBefore_irrefl. apply orb_false_r.
Qed.

Lemma isActive_spec_witness :
  isActive {| id := "a"; manually_activated := false;
              release_date := TimeValue 1700000000000 |}
           (TimeValue 1700000000000)
  = false.
Proof.
  apply (proj2 (isActive_spec
                  {| id := "a"; manually_activated := false;
                     release_date := TimeValue 1700000000000 |}
                  (TimeValue 1700000000000))).
  reflexivity.
Defined.

(** ** The query *)

(** C5: on every snapshot the consumer returns normally; with [m] the first
    record whose [id] is the one asked for, it renders nothing when there is
    no such record, and otherwise renders the children exactly when
    [isActive] holds of that record. *)
Theorem FoggleConsumer_first_match {Children : Type} (fid : string)
    (children : Children) (now : Date) (snapshot : list FeatureRecord)
    (m : option FeatureRecord) :
  first_match fid snapshot m →
  FoggleConsumer_render fid children now
    (FoggleContext.provided (Some {| enabledFeatures := snapshot |}))
  = Ok (match m with
        | None => None
        | Some r => if isActive r now then Some children else None
        end).
Proof.
  intros Hm. rewrite FoggleConsumer_render_provided.
  by rewrite (find_first_match fid snapshot m Hm).
Qed.

(** The scenario of two records, one released yesterday and one tomorrow:
    ["a"] is rendered, ["b"] and the unknown ["c"] are not. *)
Lemma FoggleConsumer_first_match_witness :
  let a := {| id := "a"; manually_activated := false;
              release_date := TimeValue 1000 |} in
  let b := {| id := "b"; manually_activated := false;
              release_date := TimeValue 3000 |} in
  let value := FoggleContext.provided (Some {| enabledFeatures := [a; b] |}) in
  FoggleConsumer_render "a" tt (TimeValue 2000) value = Ok (Some tt)
  ∧ FoggleConsumer_render "b" tt (TimeValue 2000) value = Ok None
  ∧ FoggleConsumer_render "c" tt (TimeValue 2000) value = Ok None.
Proof.
  intros a b value. split; [| split].
  - apply (FoggleConsumer_first_match "a" tt (TimeValue 2000) ([] ++ a :: [b])
             (Some a)).
    apply first_match_some; [| reflexivity].
    intros x Hx. by apply elem_of_nil in Hx.
  - apply (FoggleConsumer_first_match "b" tt (TimeValue 2000) ([a] ++ b :: [])
             (Some b)).
    apply first_match_some; [| reflexivity].
    intros x Hx. apply list_elem_of_singleton in Hx as ->. discriminate.
  - apply (FoggleConsumer_first_match "c" tt (TimeValue 2000) [a; b] None).
    apply first_match_none. intros x Hx.
    apply elem_of_cons in Hx as [-> | Hx]; [discriminate |].
    apply list_elem_of_singleton in Hx as ->. discriminate.
Defined.

(** C9: on every feature list the consumer and the component built by
    [withFoggle] take the same decision [b]: both return normally, each
    renders its content exactly when [b] is true, and [b] is true exactly
    when the first record with the id exists and is manually activated or
    released before the current time. *)
Theorem consumer_and_withFoggle_agree {Children C V : Type} (fid : string)
    (children : Children) (Component : C) (props bound : gmap string V)
    (now : Date) (l : list FeatureRecord) :
  ∃ b : bool,
    FoggleConsumer_render fid children now
      (FoggleContext.provided (Some {| enabledFeatures := l |}))
    = Ok (if b then Some children else None)
    ∧ FoggyComponent_render Component fid props bound now
        (FoggleContext.provided (Some {| enabledFeatures := l |}))
      = Ok (if b then Some (createElement Component (bound ∪ props)) else None)
    ∧ (b = true
       ↔ ∃ r, first_match fid l (Some r)
              ∧ (manually_activated r = true ∨ before (release_date r) now)).
Proof.
  rewrite FoggleConsumer_render_provided, FoggyComponent_render_provided.
  destruct (first_match_total fid l) as [m Hm].
  rewrite (find_first_match fid l m Hm).
  destruct m as [r |].
  - exists (isActive r now). split; [by destruct (isActive r now) |].
    split; [by destruct (isActive r now) |].
    rewrite isActive_true_iff. split.
    + intros Hact. by exists r.
    + intros (r' & Hm' & Hact).
      apply find_first_match in Hm, Hm'. congruence.
  - exists false. repeat split; try done.
    intros (r' & Hm' & _).
    apply find_first_match in Hm, Hm'. congruence.
Qed.

(** ** Before the first fetch *)

Lemma FoggleConsumer_render_empty {Children : Type} (fid : string)
    (children : Children) (now : Date) :
  FoggleConsumer_render fid children now
    (FoggleContext.provided (Some {| enabledFeatures := [] |}))
  = Ok None.
Proof. reflexivity. Qed.

(** C6 on the code: the default context value does hold the empty list, but
    under [enabledFeatures], whereas the consumer reads
    [value.features.enabledFeatures]; on the default value, for every id, the
    query throws a [TypeError] where the claim has it answer "not active". *)
Theorem FoggleConsumer_default_context_throws {Children : Type}
    (fid : string) (children : Children) (now : Date) :
  FoggleContext.enabledFeatures FoggleContext.defaultValue = Some []
  ∧ FoggleContext.features FoggleContext.defaultValue = None
  ∧ FoggleConsumer_render fid children now FoggleContext.defaultValue
    = Throw cannot_read_enabledFeatures.
Proof. by repeat split. Qed.

(** * Start-up of the poller *)

Lemma fire_trace (config : ConfigState) (tr : list event) :
  fire BoundUpdate config tr
  = (tt, tr ++ [CheckFeatures (getHost config) (getHeaders config)]).
Proof. reflexivity. Qed.

Lemma fire_times_trace (n : nat) (config : ConfigState) (tr : list event) :
  snd (fire_times n BoundUpdate config tr)
  = tr ++ replicate n (CheckFeatures (getHost config) (getHeaders config)).
Proof.
  revert tr. induction n as [| n IH]; intros tr; simpl.
  - by rewrite app_nil_r.
  - change (snd (fire_times n BoundUpdate config
                   (tr ++ [CheckFeatures (getHost config)
                                         (getHeaders config)]))
            = tr ++ CheckFeatures (getHost config) (getHeaders config)
                    :: replicate n (CheckFeatures (getHost config)
                                                  (getHeaders config))).
    rewrite IH. by rewrite <- app_assoc.
Qed.

Lemma fetches_replicate (n : nat) (h : option string) (hs : headers_object) :
  length (filter (fun e => is_fetch e = true)
            (replicate n (CheckFeatures h hs))) = n.
Proof.
  induction n as [| n IH]; [reflexivity |].
  cbn [replicate]. rewrite filter_cons_True by reflexivity.
  cbn [length]. by rewrite IH.
Qed.

(** C8: mounting the provider calls [checkFeatures] exactly once, with the
    host and the headers of the configuration, and only then registers one
    repeating timer whose delay is the update interval of the configuration;
    each expiry of that timer is one more call of [checkFeatures] with the
    host and headers the configuration has at that time, so after [n]
    expiries there have been [1 + n] calls. *)
Theorem componentDidMount_trace (config : ConfigState) :
  snd (componentDidMount config [])
  = [CheckFeatures (getHost config) (getHeaders config);
     SetInterval BoundUpdate (getUpdateInterval config)]
  ∧ length (filter (fun e => is_fetch e = true)
              (snd (componentDidMount config []))) = 1
  ∧ (∀ (config' : ConfigState) (tr : list event),
       snd (fire BoundUpdate config' tr)
       = tr ++ [CheckFeatures (getHost config') (getHeaders config')])
  ∧ (∀ n : nat,
       length (filter (fun e => is_fetch e = true)
                 (snd (fire_times n BoundUpdate config
                         (snd (componentDidMount config [])))))
       = 1 + n).
Proof.
  split; [reflexivity |]. split; [reflexivity |]. split.
  - intros config' tr. by rewrite fire_trace.
  - intros n. rewrite fire_times_trace.
    change (snd (componentDidMount config []))
      with [CheckFeatures (getHost config) (getHeaders config);
            SetInterval BoundUpdate (getUpdateInterval config)].
    rewrite filter_app, length_app, fetches_replicate. reflexivity.
Qed.

(** * Further properties of the configuration object *)

Section Headers.

Implicit Types (s : ConfigState) (o : headers_object) (k : string)
  (v : header_value).

Lemma set_property_lookup_eq k v o :
  k ≠ "__proto__" → set_property k v o !! k = Some v.
Proof.
  intros Hk. unfold set_property.
  destruct (String.eqb_spec k "__proto__") as [Heq | _]; [done |].
  simpl. apply lookup_insert_eq.
Qed.

Lemma set_property_lookup_ne k k' v o :
  k' ≠ k → set_property k v o !! k' = o !! k'.
Proof.
  intros Hne. unfold set_property.
  destruct ((k =? "__proto__") && bool_decide (o !! k = None)); [done |].
  by apply lookup_insert_ne.
Qed.

Lemma set_property_twice k v1 v2 o :
  set_property k v2 (set_property k v1 o) = set_property k v2 o.
Proof.
  unfold set_property.
  destruct (String.eqb_spec k "__proto__") as [-> | Hk]; simpl.
  - destruct (o !! "__proto__") as [w |] eqn:Ho.
    + rewrite (bool_decide_eq_false_2 (Some w = None)) by done.
      rewrite lookup_insert_eq.
      rewrite (bool_decide_eq_false_2 (Some v1 = None)) by done.
      apply insert_insert_eq.
    + rewrite (bool_decide_eq_true_2 (None = None)) by done.
      rewrite Ho. by rewrite (bool_decide_eq_true_2 (None = None)).
  - apply insert_insert_eq.
Qed.

Lemma set_property_no_proto k v o :
  o !! "__proto__" = None → set_property k v o !! "__proto__" = None.
Proof.
  intros Ho. unfold set_property.
  destruct (String.eqb_spec k "__proto__") as [-> | Hk]; simpl.
  - rewrite Ho. by rewrite (bool_decide_eq_true_2 (None = None)).
  - by rewrite lookup_insert_ne.
Qed.

Lemma set_property_commute k1 k2 v1 v2 o :
  k1 ≠ k2 →
  set_property k1 v1 (set_property k2 v2 o)
  = set_property k2 v2 (set_property k1 v1 o).
Proof.
  intros Hne. apply map_eq. intros j.
  destruct (decide (j = k1)) as [-> | Hj1].
  - rewrite (set_property_lookup_ne k2 k1) by done.
    unfold set_property at 1 3.
    rewrite (set_property_lookup_ne k2 k1) by done.
    destruct ((k1 =? "__proto__") && bool_decide (o !! k1 = None)).
    + by apply set_property_lookup_ne.
    + by rewrite !lookup_insert_eq.
  - rewrite (set_property_lookup_ne k1 j) by done.
    destruct (decide (j = k2)) as [-> | Hj2].
    + unfold set_property at 1 2.
      rewrite (set_property_lookup_ne k1 k2) by done.
      destruct ((k2 =? "__proto__") && bool_decide (o !! k2 = None)).
      * by rewrite set_property_lookup_ne.
      * by rewrite !lookup_insert_eq.
    + by rewrite !set_property_lookup_ne.
Qed.

(** What [getHeaders] shows after a call of [addHeader]. *)
Lemma getHeaders_addHeader (name : option name_value) v s :
  well_formed s →
  getHeaders (snd (addHeader name v s))
  = match toPropertyKey (default (NString "") name) with
    | Ok k => set_property k v (getHeaders s)
    | Throw _ => getHeaders s
    end.
Proof.
  intros Hwf. rewrite addHeader_assigns.
  destruct (toPropertyKey (default (NString "") name)) as [k | e]; [| done].
  unfold getHeaders at 1. simpl. by apply deref_insert_eq.
Qed.

Lemma call_well_formed (c : method_call) s :
  well_formed s → well_formed (snd (call c s)).
Proof.
  intros Hwf. destruct c; simpl.
  - by apply setUpdateInterval_well_formed.
  - by apply addHeader_well_formed.
  - apply assign_fresh_headers_well_formed.
Qed.

(** A property that every call keeps holds after any sequence of calls. *)
Lemma calls_invariant (P : ConfigState → Prop) :
  (∀ c s, P s → P (snd (call c s))) →
  ∀ cs s, P s → P (calls cs s).
Proof.
  intros Hstep cs. induction cs as [| c cs IH]; intros s Hs; [done |].
  apply IH, Hstep, Hs.
Qed.

Lemma calls_well_formed (h : option string) (cs : list method_call) :
  well_formed (calls cs (snd (FoggleConfig h))).
Proof.
  apply (calls_invariant well_formed); [apply call_well_formed |].
  apply FoggleConfig_well_formed.
Qed.

End Headers.

(** ** Headers: reading back, overwriting, order *)

(** X1: on a configuration in any state its methods can bring it to,
    [addHeader(k, v)] with a string [k] other than ["__proto__"] returns
    normally, [getHeaders()] then has [v] under [k], and every other header
    is what it was. *)
Theorem addHeader_lookup (h : option string) (cs : list method_call)
    (k : string) (v : header_value) :
  k ≠ "__proto__" →
  let s := calls cs (snd (FoggleConfig h)) in
  fst (addHeader (Some (NString k)) v s) = Ok tt
  ∧ getHeaders (snd (addHeader (Some (NString k)) v s)) !! k = Some v
  ∧ (∀ k', k' ≠ k →
       getHeaders (snd (addHeader (Some (NString k)) v s)) !! k'
       = getHeaders s !! k').
Proof.
  intros Hk s. split; [reflexivity |].
  rewrite getHeaders_addHeader by apply calls_well_formed. simpl.
  split.
  - by apply set_property_lookup_eq.
  - intros k' Hk'. by apply set_property_lookup_ne.
Qed.

Lemma addHeader_lookup_witness :
  getHeaders
    (snd (addHeader (Some (NString "Accept")) (HString "text/plain")
            (calls [AddHeader (Some (NString "X")) (HString "1")]
               (snd (FoggleConfig (Some "h"))))))
  !! "Accept" = Some (HString "text/plain").
Proof.
  apply (addHeader_lookup (Some "h")
           [AddHeader (Some (NString "X")) (HString "1")]
           "Accept" (HString "text/plain")).
  discriminate.
Defined.

(** X2: setting the same header twice leaves what setting it once with the
    second value leaves: the last write wins. *)
Theorem addHeader_last_write_wins (h : option string)
    (cs : list method_call) (k : string) (v1 v2 : header_value) :
  let s := calls cs (snd (FoggleConfig h)) in
  getHeaders (snd (addHeader (Some (NString k)) v2
                     (snd (addHeader (Some (NString k)) v1 s))))
  = getHeaders (snd (addHeader (Some (NString k)) v2 s)).
Proof.
  intros s.
  assert (well_formed s) as Hwf by apply calls_well_formed.
  rewrite !getHeaders_addHeader by (try apply addHeader_well_formed; exact Hwf).
  simpl. apply set_property_twice.
Qed.

(** X3: headers with different names can be added in either order:
    [getHeaders()] is the same afterwards. *)
Theorem addHeader_commute (h : option string) (cs : list method_call)
    (k1 k2 : string) (v1 v2 : header_value) :
  k1 ≠ k2 →
  let s := calls cs (snd (FoggleConfig h)) in
  getHeaders (snd (addHeader (Some (NString k2)) v2
                     (snd (addHeader (Some (NString k1)) v1 s))))
  = getHeaders (snd (addHeader (Some (NString k1)) v1
                       (snd (addHeader (Some (NString k2)) v2 s)))).
Proof.
  intros Hne s.
  assert (well_formed s) as Hwf by apply calls_well_formed.
  rewrite !getHeaders_addHeader by (try apply addHeader_well_formed; exact Hwf).
  simpl. by apply set_property_commute.
Qed.

Lemma addHeader_commute_witness :
  getHeaders (calls [AddHeader (Some (NString "A")) (HString "1");
                     AddHeader (Some (NString "B")) (HString "2")]
                (snd (FoggleConfig (Some "h"))))
  = getHeaders (calls [AddHeader (Some (NString "B")) (HString "2");
                       AddHeader (Some (NString "A")) (HString "1")]
                  (snd (FoggleConfig (Some "h")))).
Proof.
  apply (addHeader_commute (Some "h") [] "A" "B" (HString "1") (HString "2")).
  discriminate.
Defined.

(** X4: [clearHeaders()] leaves no header, whatever there was, and a header
    added next (under a name other than ["__proto__"]) is then the only
    one. *)
Theorem clearHeaders_then_addHeader (s : ConfigState) (k : string)
    (v : header_value) :
  getHeaders (clearHeaders s) = ∅
  ∧ (k ≠ "__proto__" →
     getHeaders (snd (addHeader (Some (NString k)) v (clearHeaders s)))
     = {[ k := v ]}).
Proof.
  split; [apply clearHeaders_empty |].
  intros Hk.
  rewrite getHeaders_addHeader by apply assign_fresh_headers_well_formed.
  simpl. rewrite clearHeaders_empty. unfold set_property.
  destruct (String.eqb_spec k "__proto__") as [Heq | _]; [done |].
  simpl. apply insert_empty.
Qed.

Lemma clearHeaders_then_addHeader_witness :
  getHeaders
    (snd (addHeader (Some (NString "B")) (HString "2")
            (clearHeaders
               (calls [AddHeader (Some (NString "A")) (HString "1")]
                  (snd (FoggleConfig (Some "h")))))))
  = {[ "B" := HString "2" ]}.
Proof.
  apply (clearHeaders_then_addHeader
           (calls [AddHeader (Some (NString "A")) (HString "1")]
              (snd (FoggleConfig (Some "h"))))
           "B" (HString "2")).
  discriminate.
Defined.

(** X10: [addHeader] throws exactly when its first argument is an object
    with an own [toString] property (which, holding a string or [undefined],
    cannot be called to name the header); the configuration is then left as
    it was.  With a string, or no first argument, it never throws. *)
Theorem addHeader_throws_iff (name : option name_value) (v : header_value)
    (s : ConfigState) :
  (throws (fst (addHeader name v s))
   ↔ ∃ obj, name = Some (NObject obj) ∧ is_Some (obj !! "toString"))
  ∧ (throws (fst (addHeader name v s)) → snd (addHeader name v s) = s).
Proof.
  rewrite addHeader_assigns.
  destruct name as [[k | obj] |]; simpl.
  - split; [| done]. split; [done |]. by intros (obj & Heq & _).
  - destruct (obj !! "toString") as [w |] eqn:Hts; simpl.
    + split; [| done]. split; [| done]. intros _. exists obj. by rewrite Hts.
    + split; [| done]. split; [done |].
      intros (obj' & Heq & Hsome). injection Heq as <-.
      rewrite Hts in Hsome. by destruct Hsome.
  - split; [| done]. split; [done |]. by intros (obj & Heq & _).
Qed.

Lemma addHeader_throws_iff_witness :
  snd (addHeader (Some (NObject {[ "toString" := HString "x" ]})) HUndefined
         (snd (FoggleConfig (Some "h"))))
  = snd (FoggleConfig (Some "h")).
Proof.
  apply (addHeader_throws_iff
           (Some (NObject {[ "toString" := HString "x" ]})) HUndefined
           (snd (FoggleConfig (Some "h")))).
  vm_compute. exact I.
Defined.

(** ** Objects handed out by [getOptions] *)

Lemma mutate_AssignHeader (k : string) (v : header_value) (o : Options)
    (s : ConfigState) :
  snd (mutate (AssignHeader k v) (o, s))
  = {| heap := <[headers o :=
                   set_property k v (deref (heap s) (headers o))]> (heap s);
       defaultOptions := defaultOptions s |}.
Proof. reflexivity. Qed.

(** X5: [clearHeaders()] gives the configuration a new headers object and
    leaves the old one alone.  An object got from [getOptions()] before
    the call still shows the headers from before it, and a header written
    through that object afterwards reaches the old object only:
    [getHeaders()] stays empty. *)
Theorem clearHeaders_breaks_sharing (h : option string)
    (cs : list method_call) (k : string) (v : header_value) :
  let s := calls cs (snd (FoggleConfig h)) in
  let o := getOptions s in
  let s1 := clearHeaders s in
  let s2 := snd (mutate (AssignHeader k v) (o, s1)) in
  deref (heap s1) (headers o) = getHeaders s
  ∧ getHeaders s2 = ∅
  ∧ deref (heap s2) (headers o) = set_property k v (getHeaders s).
Proof.
  intros s o s1 s2.
  assert (well_formed s) as Hwf by apply calls_well_formed.
  unfold well_formed in Hwf.
  assert (deref (heap s1) (headers o) = getHeaders s) as Hold.
  { unfold deref, getHeaders. simpl. by apply lookup_total_app_l. }
  split; [exact Hold |]. split.
  - unfold s2. rewrite mutate_AssignHeader.
    unfold getHeaders, deref. simpl.
    rewrite list_lookup_total_insert_ne by lia.
    apply list_lookup_total_correct.
    rewrite lookup_app_r by lia. by rewrite Nat.sub_diag.
  - unfold s2. rewrite mutate_AssignHeader. cbn [heap].
    rewrite deref_insert_eq; [by rewrite Hold |].
    unfold s1. simpl. rewrite length_app. simpl. lia.
Qed.

(** X6: [addHeader] writes into the headers object in place, so an object
    got from [getOptions()] before the call shows the header added after
    it. *)
Theorem getOptions_sees_later_addHeader (h : option string)
    (cs : list method_call) (k : string) (v : header_value) :
  k ≠ "__proto__" →
  let s := calls cs (snd (FoggleConfig h)) in
  let o := getOptions s in
  let s' := snd (addHeader (Some (NString k)) v s) in
  deref (heap s') (headers o) = getHeaders s'
  ∧ deref (heap s') (headers o) !! k = Some v.
Proof.
  intros Hk s o s'.
  assert (deref (heap s') (headers o) = getHeaders s') as Heq.
  { unfold getHeaders, s'. by rewrite addHeader_defaultOptions. }
  split; [exact Heq |]. rewrite Heq. unfold s'.
  rewrite getHeaders_addHeader by apply calls_well_formed. simpl.
  by apply set_property_lookup_eq.
Qed.

Lemma getOptions_sees_later_addHeader_witness :
  let s := snd (FoggleConfig (Some "h")) in
  deref (heap (snd (addHeader (Some (NString "A")) (HString "1") s)))
    (headers (getOptions s))
  !! "A" = Some (HString "1").
Proof.
  apply (getOptions_sees_later_addHeader (Some "h") [] "A" (HString "1")).
  discriminate.
Defined.

(** ** What no sequence of calls changes *)

(** X7: the update interval of a configuration is never NaN: not after
    construction, and not after any sequence of calls of its methods,
    rejected ones included. *)
Theorem updateInterval_never_NaN (h : option string)
    (cs : list method_call) :
  Number.isNaN (getUpdateInterval (calls cs (snd (FoggleConfig h)))) = false.
Proof.
  apply (calls_invariant
           (fun s => Number.isNaN (getUpdateInterval s) = false)).
  - intros c s Hs. destruct c as [n | name v |]; simpl.
    + unfold setUpdateInterval.
      destruct (Number.isNaN n) eqn:Hn; [exact Hs | exact Hn].
    + unfold getUpdateInterval. by rewrite addHeader_defaultOptions.
    + exact Hs.
  - vm_compute. reflexivity.
Qed.

(** X8: the host given at construction is the host for good: no sequence of
    calls of the methods changes what [getHost()] returns. *)
Theorem host_never_changes (h : option string) (cs : list method_call) :
  getHost (calls cs (snd (FoggleConfig h))) = h.
Proof.
  apply (calls_invariant (fun s => getHost s = h)); [| reflexivity].
  intros c s Hs. destruct c as [n | name v |]; simpl.
  - unfold setUpdateInterval. by destruct (Number.isNaN n).
  - unfold getHost. by rewrite addHeader_defaultOptions.
  - exact Hs.
Qed.

(** X9: no header is ever named ["__proto__"]: assigning to that name on the
    headers object goes to the inherited accessor and stores nothing, so
    after any sequence of calls [getHeaders()] has no such property, and
    [addHeader("__proto__", v)] changes no header. *)
Theorem proto_never_a_header (h : option string) (cs : list method_call)
    (v : header_value) :
  getHeaders (calls cs (snd (FoggleConfig h))) !! "__proto__" = None
  ∧ getHeaders (snd (addHeader (Some (NString "__proto__")) v
                       (calls cs (snd (FoggleConfig h)))))
    = getHeaders (calls cs (snd (FoggleConfig h))).
Proof.
  assert (getHeaders (calls cs (snd (FoggleConfig h))) !! "__proto__" = None)
    as Hno.
  { assert (well_formed (calls cs (snd (FoggleConfig h)))
            ∧ getHeaders (calls cs (snd (FoggleConfig h))) !! "__proto__"
              = None) as [_ Hno]; [| exact Hno].
    apply (calls_invariant
             (fun s => well_formed s ∧ getHeaders s !! "__proto__" = None)).
    - intros c s [Hwf Hs]. split; [by apply call_well_formed |].
      destruct c as [n | name w |]; simpl.
      + unfold setUpdateInterval. by destruct (Number.isNaN n).
      + rewrite getHeaders_addHeader by exact Hwf.
        destruct (toPropertyKey (default (NString "") name)); [| exact Hs].
        by apply set_property_no_proto.
      + by rewrite clearHeaders_empty.
    - split; [apply FoggleConfig_well_formed | reflexivity]. }
  split; [exact Hno |].
  assert (∀ o : headers_object,
            o !! "__proto__" = None → set_property "__proto__" v o = o)
    as Hset.
  { intros o Ho. unfold set_property.
    by rewrite (bool_decide_eq_true_2 _ Ho). }
  rewrite getHeaders_addHeader by apply calls_well_formed.
  exact (Hset _ Hno).
Qed.

(** * Further properties of the feature lookup *)

Lemma find_head_filter (fid : string) (l : list FeatureRecord) :
  find (fun feature => id feature =? fid) l
  = head (filter (fun r => id r = fid) l).
Proof.
  induction l as [| a l IH]; [reflexivity |]. simpl.
  destruct (String.eqb_spec (id a) fid) as [Heq | Hne].
  - by rewrite filter_cons_True.
  - by rewrite filter_cons_False.
Qed.

(** X11: the first record with the id decides alone.  Records with other
    ids, and later records with the same id, have no influence: the consumer
    renders on a list what it renders on the list that holds just the first
    record with that id (or nothing, when there is none). *)
Theorem FoggleConsumer_first_record_decides {Children : Type} (fid : string)
    (children : Children) (now : Date) (l : list FeatureRecord) :
  FoggleConsumer_render fid children now
    (FoggleContext.provided (Some {| enabledFeatures := l |}))
  = FoggleConsumer_render fid children now
      (FoggleContext.provided
         (Some {| enabledFeatures :=
                    option_list (head (filter (fun r => id r = fid) l)) |})).
Proof.
  rewrite !FoggleConsumer_render_provided, find_head_filter.
  destruct (head (filter (fun r => id r = fid) l)) as [r |] eqn:Hhead;
    [| reflexivity].
  simpl.
  assert (id r = fid) as Hid.
  { apply head_Some_elem_of in Hhead.
    by apply list_elem_of_filter in Hhead as [Hid _]. }
  by rewrite (proj2 (String.eqb_eq _ _) Hid).
Qed.

(** X12: a feature that is rendered stays rendered as time goes on: if the
    consumer renders its children at one time, it renders them at every later
    time, on the same context value. *)
Theorem FoggleConsumer_stays_active {Children : Type} (fid : string)
    (children : Children) (t t' : Z) (value : FoggleContext.value) :
  (t ≤ t')%Z →
  FoggleConsumer_render fid children (TimeValue t) value = Ok (Some children) →
  FoggleConsumer_render fid children (TimeValue t') value
  = Ok (Some children).
Proof.
  intros Hle. unfold FoggleConsumer_render.
  destruct (FoggleContext.features value) as [fs |]; [| done].
  destruct (find _ (enabledFeatures fs)) as [found |]; [| done].
  destruct (manually_activated found); [done |]. simpl.
  destruct (release_date found) as [| t0]; simpl; [done |].
  destruct (t0 <? t)%Z eqn:Hlt; [| done].
  intros _. apply Z.ltb_lt in Hlt.
  by rewrite (proj2 (Z.ltb_lt t0 t')) by lia.
Qed.

Lemma FoggleConsumer_stays_active_witness :
  FoggleConsumer_render "a" tt (TimeValue 5000)
    (FoggleContext.provided
       (Some {| enabledFeatures :=
                  [{| id := "a"; manually_activated := false;
                      release_date := TimeValue 1000 |}] |}))
  = Ok (Some tt).
Proof.
  apply (FoggleConsumer_stays_active "a" tt 2000 5000); [lia | reflexivity].
Defined.

Lemma Raw_find_records (fid : string) (l : list FeatureRecord) :
  Raw.find fid (map Raw.Feature l)
  = Ok (find (fun feature => id feature =? fid) l).
Proof.
  induction l as [| a l IH]; [reflexivity |]. simpl.
  by destruct (id a =? fid).
Qed.

Lemma Raw_find_throws (fid : string) (array : list Raw.entry) :
  throws (Raw.find fid array) ↔ Raw.nullish_before_match fid array.
Proof.
  unfold Raw.nullish_before_match.
  induction array as [| e array IH]; simpl.
  - split; [done |]. intros (rs & rest & Heq & _).
    by destruct rs.
  - destruct e as [| r]; simpl.
    + split; [| done]. intros _. exists [], array. by split.
    + destruct (String.eqb_spec (id r) fid) as [Hid | Hid]; simpl.
      * split; [done |]. intros (rs & rest & Heq & Hall).
        destruct rs as [| r' rs]; simpl in Heq; [discriminate |].
        injection Heq as <- _. by apply Forall_cons_1 in Hall as [Hne _].
      * rewrite IH. split.
        -- intros (rs & rest & -> & Hall).
           exists (r :: rs), rest. split; [reflexivity |].
           by apply Forall_cons.
        -- intros (rs & rest & Heq & Hall).
           destruct rs as [| r' rs]; simpl in Heq; [discriminate |].
           injection Heq as <- ->. apply Forall_cons_1 in Hall as [_ Hall].
           by exists rs, rest.
Qed.

(** X13: when the render callbacks throw.  Let [value.features] be
    [undefined], [null] or an object, its [enabledFeatures] missing or an
    array, and the elements of the array [null], [undefined] or feature
    records.  Then the callback of [FoggleConsumer] and the one of the
    [withFoggle] component throw in the same cases: [features] is nullish,
    or [enabledFeatures] is missing, or the array has a nullish element
    before any record with the id (one after the first such record is never
    read).  On the values whose [features], when there, holds an array of
    records, they are the callbacks the other properties are about. *)
Theorem render_throws_iff {Children C V : Type} (fid : string)
    (children : Children) (Component : C) (props bound : gmap string V)
    (now : Date) :
  (∀ v : Raw.value,
     (throws (Raw.FoggleConsumer_render fid children now v)
      ↔ Raw.unreadable fid v)
     ∧ (throws (Raw.FoggyComponent_render Component fid props bound now v)
        ↔ Raw.unreadable fid v))
  ∧ (∀ value : FoggleContext.value,
       Raw.FoggleConsumer_render fid children now (Raw.of_value value)
       = FoggleConsumer_render fid children now value
       ∧ Raw.FoggyComponent_render Component fid props bound now
           (Raw.of_value value)
         = FoggyComponent_render Component fid props bound now value).
Proof.
  split.
  - intros [[| [array |]]]; unfold Raw.FoggleConsumer_render,
      Raw.FoggyComponent_render, Raw.unreadable; simpl; try done.
    rewrite <- Raw_find_throws.
    by destruct (Raw.find fid array) as [[found |] | e].
  - intros value.
    unfold Raw.FoggleConsumer_render, Raw.FoggyComponent_render,
      FoggleConsumer_render, FoggyComponent_render, Raw.of_value.
    simpl. destruct (FoggleContext.features value) as [fs |]; [| done].
    rewrite Raw_find_records.
    by destruct (find _ (enabledFeatures fs)).
Qed.

(** * Further properties of the poller *)

Lemma fire_each_trace (configs : list ConfigState) (tr : list event) :
  snd (fire_each BoundUpdate configs tr)
  = tr ++ map (fun c => CheckFeatures (getHost c) (getHeaders c)) configs.
Proof.
  revert tr. induction configs as [| c configs IH]; intros tr; simpl.
  - by rewrite app_nil_r.
  - change (snd (fire_each BoundUpdate configs
                   (tr ++ [CheckFeatures (getHost c) (getHeaders c)]))
            = tr ++ CheckFeatures (getHost c) (getHeaders c)
                    :: map (fun c => CheckFeatures (getHost c) (getHeaders c))
                         configs).
    rewrite IH. by rewrite <- app_assoc.
Qed.

Lemma no_timer_in_fetches (configs : list ConfigState) :
  filter (fun e => is_fetch e = false)
    (map (fun c => CheckFeatures (getHost c) (getHeaders c)) configs)
  = [].
Proof.
  induction configs as [| c configs IH]; [reflexivity |].
  simpl. by rewrite filter_cons_False.
Qed.

(** X14: after mounting, let the timer expire any number of times, the
    configuration being in any state at each expiry.  Every expiry calls
    [checkFeatures] with the host and headers the configuration has then, so
    headers added after mounting are sent from the next expiry on; and the
    only timer ever registered is the one of mounting, with the update
    interval read then: a later [setUpdateInterval] does not reschedule. *)
Theorem poller_trace (config : ConfigState) (configs : list ConfigState) :
  let trace :=
    snd (fire_each BoundUpdate configs (snd (componentDidMount config []))) in
  trace
  = [CheckFeatures (getHost config) (getHeaders config);
     SetInterval BoundUpdate (getUpdateInterval config)]
    ++ map (fun c => CheckFeatures (getHost c) (getHeaders c)) configs
  ∧ filter (fun e => is_fetch e = false) trace
    = [SetInterval BoundUpdate (getUpdateInterval config)].
Proof.
  intros trace. unfold trace. rewrite fire_each_trace.
  change (snd (componentDidMount config []))
    with [CheckFeatures (getHost config) (getHeaders config);
          SetInterval BoundUpdate (getUpdateInterval config)].
  split; [reflexivity |].
  rewrite filter_app, no_timer_in_fetches. reflexivity.
Qed.
